(** * cfs-quota-burst: cgroup path resolution, state informers and metric collectors

    A shallow embedding of the agent core of the repository:
    - package [util] (container cgroup paths, process lists),
    - package [statesinformer] ([PodMeta]) and its [impl] (plugin registry, [Run]),
    - package [metricsadvisor] (collector registry, [Run]),
    - the [nodeinfo] collector.

    Go conventions used throughout:
    - a multi-value return [(T, error)] is a pair [T * option error], the
      error being [None] for [nil];
    - an [error] is represented by its message;
    - a pointer that may be [nil] is an [option];
    - a [map[string]T] is a [gmap string T]; a [range] loop visits its
      entries in an order the language leaves unspecified (class [MapRange]). *)

From Stdlib Require Import ZArith Ascii String List Bool Lia.
From stdpp Require Import base gmap strings list fin_maps.

Local Open Scope string_scope.
Local Open Scope list_scope.

Definition error := string.

(** ** Go strings *)

Module Strings.

(** [strings.Split(s, sep)] for a one-byte separator: the pieces between
    the separators, always at least one piece. *)
Fixpoint Split (sep : ascii) (s : string) : list string :=
  match s with
  | EmptyString => [EmptyString]
  | String c s' =>
      if Ascii.eqb c sep then EmptyString :: Split sep s'
      else match Split sep s' with
           | [] => [String c EmptyString]
           | h :: t => String c h :: t
           end
  end.

(** [strings.Join(elems, sep)]. *)
Fixpoint Join (elems : list string) (sep : string) : string :=
  match elems with
  | [] => EmptyString
  | [e] => e
  | e :: rest => e +:+ sep +:+ Join rest sep
  end.

(** [strings.HasPrefix(s, prefix)]. *)
Fixpoint HasPrefix (s prefix : string) {struct prefix} : bool :=
  match prefix, s with
  | EmptyString, _ => true
  | String p prefix', String c s' => Ascii.eqb c p && HasPrefix s' prefix'
  | String _ _, EmptyString => false
  end.

(** [s[n:]]. *)
Fixpoint drop (n : nat) (s : string) : string :=
  match n, s with
  | O, _ => s
  | S n', String _ s' => drop n' s'
  | S _, EmptyString => EmptyString
  end.

(** [s[:n]]. *)
Fixpoint take (n : nat) (s : string) : string :=
  match n, s with
  | O, _ => EmptyString
  | S n', String c s' => String c (take n' s')
  | S _, EmptyString => EmptyString
  end.

(** [strings.HasSuffix(s, suffix)]. *)
Definition HasSuffix (s suffix : string) : bool :=
  (String.length suffix <=? String.length s)%nat &&
  String.eqb (drop (String.length s - String.length suffix) s) suffix.

(** [strings.Contains(s, string(c))]. *)
Fixpoint ContainsByte (c : ascii) (s : string) : bool :=
  match s with
  | EmptyString => false
  | String c' s' => Ascii.eqb c' c || ContainsByte c s'
  end.

End Strings.

(** ** [path/filepath] on a slash-separated file system *)

Module filepath.

Definition Separator : ascii := "/"%char.

(** One path element read by [Clean], the elements kept so far being
    [out], last one first: empty and [.] elements are dropped, [..] removes
    the element before it when there is one to remove, is dropped at the
    root of a rooted path and is kept otherwise. *)
Definition cleanElem (rooted : bool) (out : list string) (e : string)
  : list string :=
  if String.eqb e EmptyString || String.eqb e "." then out
  else if String.eqb e ".." then
    match out with
    | top :: below => if String.eqb top ".." then e :: out else below
    | [] => if rooted then [] else [e]
    end
  else e :: out.

(** [filepath.Clean(path)]. *)
Definition Clean (path : string) : string :=
  match path with
  | EmptyString => "."
  | String c _ =>
      let rooted := Ascii.eqb c Separator in
      let out := fold_left (cleanElem rooted) (Strings.Split Separator path) [] in
      let s := (if rooted then "/" else EmptyString) +:+ Strings.Join (rev out) "/" in
      if String.eqb s EmptyString then "." else s
  end.

(** [filepath.Join(elem...)]: the elements from the first non-empty one
    on, joined by the separator and cleaned; the empty string when every
    element is empty. *)
Fixpoint Join (elem : list string) : string :=
  match elem with
  | [] => EmptyString
  | e :: rest =>
      if String.eqb e EmptyString then Join rest else Clean (Strings.Join elem "/")
  end.

(** The named elements of a path: its pieces between separators, without
    the empty ones and the [.] ones. *)
Definition named (e : string) : bool :=
  negb (String.eqb e EmptyString || String.eqb e ".").

Definition elements (path : string) : list string :=
  List.filter named (Strings.Split Separator path).

Definition IsAbs (path : string) : bool := Strings.HasPrefix path "/".

(** A path goes upward when one of its elements is [..]. *)
Definition upward (path : string) : bool :=
  existsb (String.eqb "..") (elements path).

End filepath.

(** ** Iteration over a Go map *)

(** [range i m] is the order in which the [i]-th [range] statement of an
    execution visits the entries of [m]: every entry once, in an order the
    language does not fix. *)
Class MapRange := {
  range : nat -> forall {A : Type}, gmap string A -> list (string * A);
  range_perm : forall i A (m : gmap string A), range i m ≡ₚ map_to_list m
}.

(** One admissible order: the canonical order of [gmap]. *)
#[export] Instance canonicalRange : MapRange := {|
  range := fun _ A m => map_to_list m;
  range_perm := fun _ A m => Permutation_refl (map_to_list m)
|}.

(** ** The Kubernetes API objects, package [corev1] *)

Module corev1.

Inductive PodPhase :=
  PodPending | PodRunning | PodSucceeded | PodFailed | PodUnknown.

(** The fields of a pod that matter here, and a few that do not. *)
Record Pod := {
  Namespace : string;
  Name : string;
  UID : string;
  Labels : list (string * string);
  NodeName : string;
  Phase : PodPhase
}.

(** [DeepCopy] of a pod pointer, generated code that opens with
    [if in == nil { return nil }]. *)
Definition DeepCopy (in_ : option Pod) : option Pod :=
  match in_ with
  | None => None
  | Some pod => Some pod
  end.

(** The part of a container status that identifies the container. *)
Record ContainerStatus := { ContainerName : string; ContainerID : string }.

End corev1.

(** ** Package [system] *)

Module system.

Inductive CgroupVersion := CgroupVersionV1 | CgroupVersionV2.

(** [type ResourceType string]. *)
Definition ResourceType := string.

(** Modelled from the spec: the cgroup resource descriptor, declared in
    package [system] outside the sources verified here. "For cgroup v1, a subsystem
    name plus a filename; for cgroup v2, a filename only." *)
Record Resource := { Subfs : string; FileName : string }.

(** Modelled from the spec: the naming convention of a cgroup driver and
    container runtime, the value of [system.CgroupPathFormatter], declared
    outside the sources verified here. [ParentDir] is the top of the pod
    hierarchy ([kubepods.slice/] in the spec's example), [ContainerDirFn] the
    spec's [FormatContainerCgroupSegment], [ContainerIDParser] its
    [ParseContainerIdentity]. *)
Record Formatter := {
  ParentDir : string;
  ContainerDirFn : string -> string;
  ContainerIDParser : string -> string * option error
}.

(** What package [util] reads from this package: [Conf.CgroupRootDir],
    [GetCurrentCgroupVersion()], [CgroupPathFormatter], the resource type
    [CPUProcsName] and the table of resource descriptors; the values of the
    last two are fixed outside the sources verified here. *)
Record System := {
  CgroupRootDir : string;
  CurrentCgroupVersion : CgroupVersion;
  CgroupPathFormatter : Formatter;
  CPUProcsName : ResourceType;
  Registry : gmap string Resource
}.

(** Modelled from the spec: [system.GetCgroupResource], absent from the
    sources verified here. "Looks up the resource descriptor for [resourceType]
    (error if unknown)." *)
Definition GetCgroupResource (sys : System) (resourceType : ResourceType)
  : Resource + error :=
  match Registry sys !! resourceType with
  | Some r => inl r
  | None => inr (resourceType +:+ " not found in cgroup registry")
  end.

(** Modelled from the spec: [system.GetCgroupFilePath], absent from the
    sources verified here. "Composes the final path as
    {cgroupRootMountPoint}/{subsystem/ if v1}/{containerCgroupDir}/{filename};
    under v2 the subsystem segment is omitted entirely." The pieces are
    joined as [GetContainerCgroupPerfPath] of package [util] joins its own. *)
Definition GetCgroupFilePath (sys : System) (parentDir : string) (r : Resource)
  : string :=
  match CurrentCgroupVersion sys with
  | CgroupVersionV2 => filepath.Join [CgroupRootDir sys; parentDir; FileName r]
  | CgroupVersionV1 =>
      filepath.Join [CgroupRootDir sys; Subfs r; parentDir; FileName r]
  end.

(** Modelled from the spec: the "scope"-suffixed naming convention, as in
    [docker-7712555c.scope] for the identity [7712555c]; the parser strips
    the runtime prefix and the suffix and fails on any other name. *)
Definition scopeSuffix : string := ".scope".

Definition scopeContainerIDParser (prefix basename : string)
  : string * option error :=
  if Strings.HasPrefix basename prefix && Strings.HasSuffix basename scopeSuffix
  then (Strings.take (String.length basename - String.length prefix
                      - String.length scopeSuffix)
                     (Strings.drop (String.length prefix) basename), None)
  else (EmptyString, Some ("fail to parse container id: " +:+ basename)).

Definition scopeFormatter (parentDir prefix : string) : Formatter := {|
  ParentDir := parentDir;
  ContainerDirFn := fun id => prefix +:+ id +:+ scopeSuffix;
  ContainerIDParser := scopeContainerIDParser prefix
|}.

(** Modelled from the spec: the directory naming convention, where the
    cgroup directory of a container is named by its identity. *)
Definition dirFormatter (parentDir : string) : Formatter := {|
  ParentDir := parentDir;
  ContainerDirFn := fun id => id;
  ContainerIDParser := fun basename => (basename, None)
|}.

(** The naming conventions the spec names. *)
Inductive supported : Formatter -> Prop :=
| supported_scope parentDir prefix : supported (scopeFormatter parentDir prefix)
| supported_dir parentDir : supported (dirFormatter parentDir).

Definition isDigit (c : ascii) : bool :=
  (48 <=? N_of_ascii c)%N && (N_of_ascii c <=? 57)%N.

Fixpoint parseDigits (s : string) (acc : N) : option N :=
  match s with
  | EmptyString => Some acc
  | String c s' =>
      if isDigit c then parseDigits s' (acc * 10 + (N_of_ascii c - 48))%N
      else None
  end.

(** A decimal integer that fits an unsigned 32-bit word
    ([GetPIDsInContainer] returns [[]uint32]). *)
Definition parseUint32 (s : string) : option N :=
  match s with
  | EmptyString => None
  | _ => match parseDigits s 0%N with
         | Some n => if (n <? 2 ^ 32)%N then Some n else None
         | None => None
         end
  end.

(** A line is a decimal integer when it is a non-empty run of digits. *)
Fixpoint allDigits (s : string) : bool :=
  match s with
  | EmptyString => true
  | String c s' => isDigit c && allDigits s'
  end.

Definition isDecimal (s : string) : bool :=
  negb (String.eqb s EmptyString) && allDigits s.

Fixpoint parseProcLines (lines : list string) : list N * option error :=
  match lines with
  | [] => ([], None)
  | line :: rest =>
      if String.eqb line EmptyString then parseProcLines rest
      else match parseUint32 line with
           | None => ([], Some ("invalid process id: " +:+ line))
           | Some pid =>
               match parseProcLines rest with
               | (pids, None) => (pid :: pids, None)
               | (_, Some e) => ([], Some e)
               end
           end
  end.

Definition lines (content : string) : list string :=
  Strings.Split "010"%char content.

(** Modelled from the spec: [system.ParseCgroupProcs], absent from the
    sources verified here. "Parses one decimal integer per non-empty line; any line
    that fails to parse is a hard error for the whole read, aborting with no
    partial result." *)
Definition ParseCgroupProcs (content : string) : list N * option error :=
  parseProcLines (lines content).

End system.

(** ** Package [util] *)

Module util.

(** Modelled from the spec: one implementation of
    [GetContainerCgroupParentDir]: "composes the container's cgroup
    directory by appending a runtime-specific path segment derived from
    the container identity to the pod cgroup parent directory", below the
    top of the pod hierarchy. *)
Definition containerCgroupParentDir (sys : system.System)
    (podParentDir : string) (c : corev1.ContainerStatus) : string * option error :=
  (filepath.Join
     [system.ParentDir (system.CgroupPathFormatter sys);
      podParentDir;
      system.ContainerDirFn (system.CgroupPathFormatter sys) (corev1.ContainerID c)],
   None).

Section Paths.

(** [GetContainerCgroupParentDir] belongs to this package but not to the
    sources verified here: the functions below are stated for any implementation
    of it. *)
Variable GetContainerCgroupParentDir :
  string -> corev1.ContainerStatus -> string * option error.

(** [os.ReadFile], converted to a string. *)
Variable ReadFile : string -> string * option error.

Variable sys : system.System.

Definition GetContainerCgroupPath (podParentDir : string)
    (c : corev1.ContainerStatus) (resourceType : system.ResourceType)
  : string * option error :=
  match system.GetCgroupResource sys resourceType with
  | inr err =>
      (EmptyString, Some ("failed to get resource type " +:+ resourceType
                 +:+ ", err: " +:+ err))
  | inl resource =>
      match GetContainerCgroupParentDir podParentDir c with
      | (_, Some err) =>
          (EmptyString, Some ("failed to get container cgroup path, err: " +:+ err))
      | (containerPath, None) =>
          (system.GetCgroupFilePath sys containerPath resource, None)
      end
  end.

Definition GetContainerCgroupCPUProcsPath (podParentDir : string)
    (c : corev1.ContainerStatus) : string * option error :=
  GetContainerCgroupPath podParentDir c (system.CPUProcsName sys).

Definition GetContainerCgroupPerfPath (podParentDir : string)
    (c : corev1.ContainerStatus) : string * option error :=
  match GetContainerCgroupParentDir podParentDir c with
  | (_, Some err) => (EmptyString, Some err)
  | (containerPath, None) =>
      match system.CurrentCgroupVersion sys with
      | system.CgroupVersionV2 =>
          (filepath.Join [system.CgroupRootDir sys; containerPath], None)
      | system.CgroupVersionV1 =>
          (filepath.Join
             [system.CgroupRootDir sys; "perf_event/"; containerPath], None)
      end
  end.

Definition ParseContainerID (basename : string) : string * option error :=
  system.ContainerIDParser (system.CgroupPathFormatter sys) basename.

Definition GetPIDsInContainer (podParentDir : string) (c : corev1.ContainerStatus)
  : list N * option error :=
  match GetContainerCgroupCPUProcsPath podParentDir c with
  | (_, Some err) => ([], Some err)
  | (cgroupPath, None) =>
      match ReadFile cgroupPath with
      | (_, Some err) => ([], Some err)
      | (rawContent, None) => system.ParseCgroupProcs rawContent
      end
  end.

End Paths.

End util.

(** ** Package [statesinformer]: [PodMeta] *)

Module statesinformer.

(** [Pod] is a pointer to a [corev1.Pod]. *)
Record PodMeta := { Pod : option corev1.Pod; CgroupDir : string }.

(** What a call does: it returns, or it panics on a nil dereference. *)
Inductive outcome (A : Type) :=
| Returns (a : A)
| Panics.
Arguments Returns {A} a.
Arguments Panics {A}.

(** [DeepCopy] of [PodMeta]; the receiver is read through [in.Pod] and
    [in.CgroupDir]. *)
Definition DeepCopy (in_ : option PodMeta) : outcome (option PodMeta) :=
  match in_ with
  | None => Panics
  | Some m =>
      Returns (Some {| Pod := corev1.DeepCopy (Pod m); CgroupDir := CgroupDir m |})
  end.

(** Modelled from the spec: [util.GetPodKey], absent from the sources
    verified here: "a deterministic namespace/name-based identifier". *)
Definition GetPodKey (pod : corev1.Pod) : string :=
  corev1.Namespace pod +:+ "/" +:+ corev1.Name pod.

Definition Key (in_ : option PodMeta) : string :=
  match in_ with
  | None => EmptyString
  | Some m =>
      match Pod m with
      | None => EmptyString
      | Some pod => GetPodKey pod
      end
  end.

Definition IsRunningOrPending (in_ : option PodMeta) : bool :=
  match in_ with
  | None => false
  | Some m =>
      match Pod m with
      | None => false
      | Some pod =>
          match corev1.Phase pod with
          | corev1.PodRunning | corev1.PodPending => true
          | _ => false
          end
      end
  end.

End statesinformer.

(** ** Package [statesinformer/impl]: the informer plugin registry *)

Module impl.

Definition PluginName := string.

(** An [informerPlugin] held by the registry is a reference to a plugin
    object; what its [HasSynced] answers at a given moment is read from
    the plugin objects as they are at that moment. *)
Definition informerPlugin := nat.
Definition pluginObjects := informerPlugin -> bool.

Record PluginState := { informerPlugins : gmap string informerPlugin }.

Record statesInformer := { states : PluginState; started : bool }.

Inductive event :=
| EvSetup (name : PluginName) (p : informerPlugin)
| EvGoStart (name : PluginName) (p : informerPlugin).

Definition errTimedOut : error :=
  "timed out waiting for states informer caches to sync".

(** The period between two polls of [cache.WaitForCacheSync], in
    milliseconds: [syncedPollPeriod] of client-go. *)
Definition syncedPollPeriod : nat := 100.

(** The surroundings of one [Run]. Instants are milliseconds counted from
    the moment [Run] begins to wait. [syncedAt] is what each plugin answers
    to [HasSynced] at each instant, [stopAt] the instant at which [stopCh]
    is closed, if it ever is, and [tickFirst] what the [select] of the
    polling loop takes when a tick and the closing of the channel fall on
    the same instant: the tick, or the channel. *)
Record world := {
  syncedAt : nat -> pluginObjects;
  stopAt : option nat;
  tickFirst : bool
}.

Definition stopped (w : world) (t : nat) : bool :=
  match stopAt w with
  | Some T => (T <=? t)%nat
  | None => false
  end.

(** The wait for the tick of instant [tick] is ended by the channel, at
    the instant it is closed, when it is closed before the tick, or at the
    instant of the tick with the [select] taking the channel. *)
Definition stopWins (w : world) (tick : nat) : option nat :=
  match stopAt w with
  | Some T =>
      if (T <? tick)%nat || ((T =? tick)%nat && negb (tickFirst w))
      then Some T else None
  | None => None
  end.

(** Whether the poll number [k], that of instant [k * syncedPollPeriod],
    is made when no poll before it has succeeded. Poll 0 is made at once,
    whatever the channel; a later one is made at its tick unless the
    channel has ended the wait. *)
Definition polled (w : world) (k : nat) : bool :=
  match k with
  | O => true
  | S _ =>
      match stopWins w (k * syncedPollPeriod) with
      | Some _ => false
      | None => true
      end
  end.

(** The loop of [wait.PollImmediateUntil] after poll number [k] has
    answered false: wait for the next tick or for the channel; on the
    channel give up, on the tick poll again. [None] while more ticks than
    [fuel] are needed. *)
Fixpoint pollLoop (fuel : nat) (w : world)
    (cacheSyncs : list informerPlugin) (k : nat) : option (bool * nat) :=
  match fuel with
  | O => None
  | S fuel' =>
      let tick := (S k * syncedPollPeriod)%nat in
      match stopWins w tick with
      | Some T => Some (false, T)
      | None =>
          if forallb (syncedAt w tick) cacheSyncs then Some (true, tick)
          else pollLoop fuel' w cacheSyncs (S k)
      end
  end.

(** [cache.WaitForCacheSync(stopCh, cacheSyncs...)] of client-go, which is
    [wait.PollImmediateUntil] over the conjunction of the functions: one
    poll at once, then one poll at every tick of [syncedPollPeriod] until
    every function answers true; the closed channel ends the wait between
    two polls, and no poll is made after it. The result comes with the
    instant at which it is returned. *)
Definition WaitForCacheSync (fuel : nat) (w : world)
    (cacheSyncs : list informerPlugin) : option (bool * nat) :=
  if forallb (syncedAt w 0) cacheSyncs then Some (true, 0)
  else pollLoop fuel w cacheSyncs 0.

(** What [Run] has done: still blocked, or returned at some instant. *)
Inductive outcome :=
| Blocked (s : statesInformer) (log : list event)
| Returned (err : option error) (s : statesInformer) (log : list event) (t : nat).

Section WithRange.
Context `{MapRange}.

Definition setupPlugins (s : statesInformer) : list event :=
  map (fun '(name, plugin) => EvSetup name plugin)
      (range 0 (informerPlugins (states s))).

Definition startPlugins (s : statesInformer) : list event :=
  map (fun '(name, p) => EvGoStart name p)
      (range 1 (informerPlugins (states s))).

(** The list of the plugins' [HasSynced] methods. *)
Definition waitForSyncFunc (s : statesInformer) : list informerPlugin :=
  fold_left (fun waitInformersSynced '(_, p) => waitInformersSynced ++ [p])
            (range 2 (informerPlugins (states s))) [].

Fixpoint hasSyncedLoop (objs : pluginObjects)
    (entries : list (string * informerPlugin)) : bool :=
  match entries with
  | [] => true
  | (_, p) :: rest => if negb (objs p) then false else hasSyncedLoop objs rest
  end.

Definition HasSynced (s : statesInformer) (objs : pluginObjects) : bool :=
  hasSyncedLoop objs (range 0 (informerPlugins (states s))).

Definition Run (fuel : nat) (w : world) (s : statesInformer) : outcome :=
  let log := setupPlugins s ++ startPlugins s in
  let waitInformersSynced := waitForSyncFunc s in
  match WaitForCacheSync fuel w waitInformersSynced with
  | None => Blocked s log
  | Some (false, t) => Returned (Some errTimedOut) s log t
  | Some (true, t) =>
      let s' := {| states := states s; started := true |} in
      match stopAt w with
      | None => Blocked s' log
      | Some T => Returned None s' log (Nat.max t T)
      end
  end.

End WithRange.

End impl.

(** ** Package [framework]: collectors *)

Module framework.

(** [time.Duration] counts nanoseconds. *)
Definition Second : Z := 1000000000.

Record Config := { CollectResUsedInterval : Z }.

(** A [Collector] as the advisor sees it: what its [Enabled] and its
    [Started] answer. *)
Record Collector := { Enabled : bool; Started : bool }.

Record Options := { Config_ : Config }.
Record Context_ := { Collectors : gmap string Collector }.

Fixpoint collectorsHasStartedLoop (entries : list (string * Collector))
  : bool :=
  match entries with
  | [] => true
  | (_, collector) :: rest =>
      if negb (Enabled collector) then collectorsHasStartedLoop rest
      else if negb (Started collector) then false
      else collectorsHasStartedLoop rest
  end.

(** Modelled from the spec: [framework.CollectorsHasStarted], absent from
    the sources verified here: "aggregate over collectors' started
    flags", "readiness aggregation only over enabled collectors". *)
Definition CollectorsHasStarted `{MapRange}
    (collectors : gmap string Collector) : bool :=
  collectorsHasStartedLoop (range 0 collectors).

End framework.

(** ** Package [metricsadvisor]: the collector registry *)

Module metricsadvisor.

Record metricAdvisor := {
  options : framework.Options;
  context : framework.Context_
}.

(** What [Run] does, as far as its surroundings see it: [Setup] on a
    collector, [go Run] on a collector, the receive on the channel. *)
Inductive event :=
| EvSetup (name : string)
| EvGoRun (name : string)
| EvRecvStop.

(** A loop over the collectors that skips those that are not enabled and
    does [act] on the others. *)
Definition forEnabled (act : string -> event)
    (entries : list (string * framework.Collector)) : list event :=
  flat_map (fun '(name, collector) =>
              if negb (framework.Enabled collector) then [] else [act name])
           entries.

Section WithRange.
Context `{MapRange}.

Definition HasSynced (m : metricAdvisor) : bool :=
  framework.CollectorsHasStarted (framework.Collectors (context m)).

Definition setup (m : metricAdvisor) : list event :=
  forEnabled EvSetup (range 0 (framework.Collectors (context m))).

(** The loop of [Run] that starts the collectors. *)
Definition startCollectors (m : metricAdvisor) : list event :=
  forEnabled EvGoRun (range 1 (framework.Collectors (context m))).

(** [Run]: what it did, in order, and the error it returned. *)
Definition Run (m : metricAdvisor) : list event * option error :=
  if (framework.CollectResUsedInterval (framework.Config_ (options m))
      <? framework.Second)%Z
  then ([], None)
  else (setup m ++ startCollectors m ++ [EvRecvStop], None).

End WithRange.

End metricsadvisor.

(** ** Package [nodeinfo]: the node CPU info collector *)

Module nodeinfo.

Section WithInfo.

(** The processor and total records of the CPU info are opaque here. *)
Variables ProcessorInfo CPUTotalInfo : Type.

(** [metriccache.NodeCPUInfoKey], a constant fixed outside the sources
    verified here. *)
Variable NodeCPUInfoKey : string.

Record LocalCPUInfo := {
  lProcessorInfos : list ProcessorInfo;
  lTotalInfo : CPUTotalInfo
}.

Record NodeCPUInfo := {
  ProcessorInfos : list ProcessorInfo;
  TotalInfo : CPUTotalInfo
}.

(** Modelled from the spec: [metriccache.KVStorage], absent from the
    sources verified here: "a keyed slot holding the most recently
    collected value", "last-write-wins". [sets] records the calls of
    [Set], oldest first. *)
Record KVStorage := {
  entries : gmap string NodeCPUInfo;
  sets : list (string * NodeCPUInfo)
}.

Definition KVSet (key : string) (value : NodeCPUInfo) (kv : KVStorage)
  : KVStorage :=
  {| entries := <[key := value]> (entries kv);
     sets := sets kv ++ [(key, value)] |}.

Record nodeInfoCollector := { storage : KVStorage; started : bool }.

Definition Started (n : nodeInfoCollector) : bool := started n.

(** One cycle, [gathered] being what [koordletutil.GetLocalCPUInfo()]
    returns in it. *)
Definition collectNodeCPUInfo (gathered : LocalCPUInfo + error)
    (n : nodeInfoCollector) : nodeInfoCollector * option error :=
  match gathered with
  | inr err => (n, Some err)
  | inl localCPUInfo =>
      let nodeCPUInfo :=
        {| ProcessorInfos := lProcessorInfos localCPUInfo;
           TotalInfo := lTotalInfo localCPUInfo |} in
      ({| storage := KVSet NodeCPUInfoKey nodeCPUInfo (storage n);
          started := started n |}, None)
  end.

Definition collectNodeInfo (gathered : LocalCPUInfo + error)
    (n : nodeInfoCollector) : nodeInfoCollector :=
  match collectNodeCPUInfo gathered n with
  | (n', Some err) => n'
  | (n', None) => {| storage := storage n'; started := true |}
  end.

(** [wait.Until(n.collectNodeInfo, n.collectInterval, stopCh)]: one cycle
    after the other until the channel is closed, [cycles] being what the
    gathering returns in each of the cycles that take place. *)
Definition Until (cycles : list (LocalCPUInfo + error))
    (n : nodeInfoCollector) : nodeInfoCollector :=
  fold_left (fun n gathered => collectNodeInfo gathered n) cycles n.

Definition succeeded (gathered : LocalCPUInfo + error) : bool :=
  match gathered with inl _ => true | inr _ => false end.

End WithInfo.

Arguments lProcessorInfos {ProcessorInfo CPUTotalInfo} _.
Arguments lTotalInfo {ProcessorInfo CPUTotalInfo} _.
Arguments ProcessorInfos {ProcessorInfo CPUTotalInfo} _.
Arguments TotalInfo {ProcessorInfo CPUTotalInfo} _.
Arguments entries {ProcessorInfo CPUTotalInfo} _.
Arguments sets {ProcessorInfo CPUTotalInfo} _.
Arguments KVSet {ProcessorInfo CPUTotalInfo} key value kv.
Arguments storage {ProcessorInfo CPUTotalInfo} _.
Arguments started {ProcessorInfo CPUTotalInfo} _.
Arguments Started {ProcessorInfo CPUTotalInfo} n.
Arguments collectNodeCPUInfo {ProcessorInfo CPUTotalInfo} NodeCPUInfoKey gathered n.
Arguments collectNodeInfo {ProcessorInfo CPUTotalInfo} NodeCPUInfoKey gathered n.
Arguments Until {ProcessorInfo CPUTotalInfo} NodeCPUInfoKey cycles n.
Arguments succeeded {ProcessorInfo CPUTotalInfo} gathered.

End nodeinfo.

(** ** Sample values *)

Module sample.

Definition registry : gmap string system.Resource :=
  {[ "cgroup.procs" :=
       {| system.Subfs := "cpu"; system.FileName := "cgroup.procs" |} ]}.

Definition sys (v : system.CgroupVersion) : system.System := {|
  system.CgroupRootDir := "/sys/fs/cgroup";
  system.CurrentCgroupVersion := v;
  system.CgroupPathFormatter := system.scopeFormatter "kubepods.slice/" "docker-";
  system.CPUProcsName := "cgroup.procs";
  system.Registry := registry
|}.

Definition container : corev1.ContainerStatus :=
  {| corev1.ContainerName := "main"; corev1.ContainerID := "7712555c" |}.

Definition podParentDir : string :=
  "kubepods-burstable.slice/kubepods-pod7712555c.slice/".

Definition nl : string := String "010"%char EmptyString.

(** The process lists of the spec's examples, and one with a line that is
    no number. *)
Definition procs : string := "123" +:+ nl +:+ "456" +:+ nl +:+ "789" +:+ nl.
Definition badProcs : string := "123" +:+ nl +:+ "4x6" +:+ nl +:+ "789" +:+ nl.

Definition readFile (content : string) (path : string)
  : string * option error := (content, None).

(** Two informer plugins, and plugin objects of which only the first has
    synced. *)
Definition plugins : gmap string impl.informerPlugin :=
  {[ "nodeInformer" := 0; "podsInformer" := 1 ]}.

Definition informer : impl.statesInformer :=
  {| impl.states := {| impl.informerPlugins := plugins |};
     impl.started := false |}.

Definition onlyFirstSynced : impl.pluginObjects :=
  fun p => match p with 0 => true | _ => false end.

Definition allSynced : impl.pluginObjects := fun _ => true.

(** Two collectors, one started and one disabled, and a third that is
    enabled and has not started. *)
Definition collectors : gmap string framework.Collector :=
  {[ "NodeInfoCollector" :=
       {| framework.Enabled := true; framework.Started := true |};
     "DisabledCollector" :=
       {| framework.Enabled := false; framework.Started := false |} ]}.

Definition advisor (interval : Z) (cs : gmap string framework.Collector)
  : metricsadvisor.metricAdvisor :=
  {| metricsadvisor.options :=
       {| framework.Config_ :=
            {| framework.CollectResUsedInterval := interval |} |};
     metricsadvisor.context := {| framework.Collectors := cs |} |}.

Definition lateCollector : framework.Collector :=
  {| framework.Enabled := true; framework.Started := false |}.

(** Plugin [p] has synced from just after instant [150 * p] on: the first
    plugin between polls 0 and 1, the second between polls 1 and 2. *)
Definition syncingOneByOne : nat -> impl.pluginObjects :=
  fun t p => (p * 150 <? t)%nat.

(** The signal comes at instant 500, after poll 2 has found both plugins
    synced. *)
Definition lateStop : impl.world :=
  {| impl.syncedAt := syncingOneByOne; impl.stopAt := Some 500;
     impl.tickFirst := false |}.

(** The signal comes at instant 120, when only one plugin has synced. *)
Definition earlyStop : impl.world :=
  {| impl.syncedAt := syncingOneByOne; impl.stopAt := Some 120;
     impl.tickFirst := false |}.

(** Every plugin has synced from instant 30 on, and the signal comes at
    instant 60: after the plugins have synced, before poll 1. *)
Definition syncedBetweenPolls : impl.world :=
  {| impl.syncedAt := fun t _ => (30 <=? t)%nat; impl.stopAt := Some 60;
     impl.tickFirst := false |}.

Definition pod : corev1.Pod := {|
  corev1.Namespace := "default";
  corev1.Name := "web-0";
  corev1.UID := "7712555c";
  corev1.Labels := [("app", "web")];
  corev1.NodeName := "node-1";
  corev1.Phase := corev1.PodRunning
|}.

(** The same namespace and name, every other field different. *)
Definition otherPod : corev1.Pod := {|
  corev1.Namespace := "default";
  corev1.Name := "web-0";
  corev1.UID := "9ff0217b";
  corev1.Labels := [];
  corev1.NodeName := "node-2";
  corev1.Phase := corev1.PodFailed
|}.

(** A pod record without a pod. *)
Definition podless : statesinformer.PodMeta :=
  {| statesinformer.Pod := None;
     statesinformer.CgroupDir := "kubepods-pod7712555c.slice/" |}.

(** A pod directory that steps out of its parent. *)
Definition upwardPodParentDir : string := "../../kubepods-pod7712555c.slice/".

End sample.

(** * Properties *)

(** ** Strings *)

Section StringFacts.

Import Strings.

Lemma eqb_string_true (a b : string) : String.eqb a b = true <-> a = b.
Proof. apply String.eqb_eq. Qed.

Lemma eqb_string_false (a b : string) : String.eqb a b = false <-> a <> b.
Proof. apply String.eqb_neq. Qed.

Lemma append_nil (t : string) : EmptyString +:+ t = t.
Proof. reflexivity. Qed.

Lemma append_cons c (s t : string) : String c s +:+ t = String c (s +:+ t).
Proof. reflexivity. Qed.

Lemma append_empty_r (s : string) : s +:+ EmptyString = s.
Proof.
  induction s as [|c s IH]; [reflexivity|].
  now rewrite append_cons, IH.
Qed.

Lemma append_assoc (a b c : string) : (a +:+ b) +:+ c = a +:+ (b +:+ c).
Proof.
  induction a as [|x a IH]; [reflexivity|].
  now rewrite !append_cons, IH.
Qed.

Lemma length_append (a b : string) :
  String.length (a +:+ b) = String.length a + String.length b.
Proof.
  induction a as [|x a IH]; [reflexivity|].
  rewrite append_cons. simpl. now rewrite IH.
Qed.

Lemma Split_not_nil sep s : Split sep s <> [].
Proof.
  destruct s as [|c s]; simpl; [discriminate|].
  destruct (Ascii.eqb c sep); [discriminate|].
  destruct (Split sep s); discriminate.
Qed.

Lemma Split_app sep (a b : string) :
  Split sep (a +:+ String sep b) = Split sep a ++ Split sep b.
Proof.
  induction a as [|c a IH].
  - rewrite append_nil. simpl. now rewrite Ascii.eqb_refl.
  - rewrite append_cons. simpl.
    destruct (Ascii.eqb c sep); [now rewrite IH|].
    rewrite IH. pose proof (Split_not_nil sep a) as Hne.
    destruct (Split sep a); [contradiction | reflexivity].
Qed.

Lemma Split_free sep s : ContainsByte sep s = false -> Split sep s = [s].
Proof.
  induction s as [|c s IH]; simpl; [reflexivity|].
  intros Hc. apply orb_false_iff in Hc as [Hc Hs].
  rewrite Hc, (IH Hs). reflexivity.
Qed.

Lemma Split_pieces_free sep s :
  Forall (fun piece => ContainsByte sep piece = false) (Split sep s).
Proof.
  induction s as [|c s IH]; simpl.
  - repeat constructor.
  - destruct (Ascii.eqb c sep) eqn:Hc.
    + constructor; [reflexivity | exact IH].
    + destruct (Split sep s) as [|h t].
      * repeat constructor. simpl. now rewrite Hc.
      * inversion IH as [|? ? Hh Ht]; subst.
        constructor; [simpl; now rewrite Hc, Hh | exact Ht].
Qed.

Lemma Join_cons2 e e' rest sep :
  Join (e :: e' :: rest) sep = e +:+ sep +:+ Join (e' :: rest) sep.
Proof. reflexivity. Qed.

(** Splitting a joined list splits each of its elements. *)
Lemma Split_Join sep (elems : list string) :
  elems <> [] ->
  Split sep (Join elems (String sep EmptyString))
  = concat (map (Split sep) elems).
Proof.
  induction elems as [|e rest IH]; [contradiction|]. intros _.
  destruct rest as [|e' rest'].
  - simpl. now rewrite List.app_nil_r.
  - rewrite Join_cons2, append_cons, append_nil, Split_app, IH by discriminate.
    reflexivity.
Qed.

(** Joining pieces that hold no separator, and splitting again. *)
Lemma Split_Join_pieces sep (pieces : list string) :
  pieces <> [] ->
  Forall (fun piece => ContainsByte sep piece = false) pieces ->
  Split sep (Join pieces (String sep EmptyString)) = pieces.
Proof.
  intros Hne Hfree. rewrite Split_Join by exact Hne. clear Hne.
  induction Hfree as [|p ps Hp _ IH]; [reflexivity|].
  simpl. rewrite (Split_free _ _ Hp), IH. reflexivity.
Qed.

Lemma HasPrefix_append (p s : string) : HasPrefix (p +:+ s) p = true.
Proof.
  induction p as [|c p IH]; [reflexivity|].
  rewrite append_cons. simpl. now rewrite Ascii.eqb_refl, IH.
Qed.

Lemma drop_append (p s : string) : drop (String.length p) (p +:+ s) = s.
Proof.
  induction p as [|c p IH]; [reflexivity|].
  rewrite append_cons. simpl. exact IH.
Qed.

Lemma take_append (s t : string) : take (String.length s) (s +:+ t) = s.
Proof.
  induction s as [|c s IH]; [reflexivity|].
  rewrite append_cons. simpl. now rewrite IH.
Qed.

Lemma HasSuffix_append (s suffix : string) :
  HasSuffix (s +:+ suffix) suffix = true.
Proof.
  unfold HasSuffix. rewrite length_append.
  replace (String.length s + String.length suffix - String.length suffix)
    with (String.length s) by lia.
  rewrite drop_append, String.eqb_refl, andb_true_r.
  apply Nat.leb_le. lia.
Qed.

End StringFacts.

(** ** Paths *)

Section PathFacts.

Import filepath.

Lemma existsb_concat {A} (f : A -> bool) (ls : list (list A)) :
  existsb f (concat ls) = existsb (existsb f) ls.
Proof.
  induction ls as [|l ls IH]; [reflexivity|].
  simpl. now rewrite existsb_app, IH.
Qed.

Lemma filter_all {A} (f : A -> bool) (l : list A) :
  Forall (fun x => f x = true) l -> List.filter f l = l.
Proof.
  induction 1 as [|x l Hx _ IH]; [reflexivity|].
  simpl. now rewrite Hx, IH.
Qed.

(** Without [..] among the named pieces, [Clean] keeps exactly the named
    pieces, in order. *)
Lemma cleanElem_fold rooted (pieces out : list string) :
  existsb (String.eqb "..") (List.filter named pieces) = false ->
  fold_left (cleanElem rooted) pieces out
  = rev (List.filter named pieces) ++ out.
Proof.
  revert out. induction pieces as [|e pieces IH]; intros out Hup; [reflexivity|].
  cbn [fold_left List.filter] in *. destruct (named e) eqn:Hnamed.
  - cbn [existsb] in Hup. apply orb_false_iff in Hup as [Hdd Hrest].
    assert (Hstep : cleanElem rooted out e = e :: out).
    { unfold cleanElem. unfold named in Hnamed.
      apply negb_true_iff in Hnamed. rewrite Hnamed.
      rewrite String.eqb_sym in Hdd. now rewrite Hdd. }
    rewrite Hstep, IH by exact Hrest. cbn [rev].
    now rewrite <- List.app_assoc.
  - assert (Hstep : cleanElem rooted out e = out).
    { unfold cleanElem. unfold named in Hnamed.
      apply negb_false_iff in Hnamed. now rewrite Hnamed. }
    rewrite Hstep. now apply IH.
Qed.

Lemma elements_empty : elements EmptyString = [].
Proof. reflexivity. Qed.

Lemma elements_slash (s : string) : elements (String Separator s) = elements s.
Proof. unfold elements. simpl. reflexivity. Qed.

(** The elements of a path written from named, separator-free pieces are
    these pieces. *)
Lemma elements_written (rooted : bool) (out : list string) :
  Forall (fun e => named e = true) out ->
  Forall (fun e => Strings.ContainsByte Separator e = false) out ->
  elements ((if rooted then "/" else EmptyString) +:+ Strings.Join out "/")
  = out.
Proof.
  intros Hnamed Hfree.
  assert (Hbody : elements (Strings.Join out "/") = out).
  { destruct out as [|e out']; [reflexivity|].
    unfold elements.
    change "/" with (String Separator EmptyString).
    rewrite Split_Join_pieces by (discriminate || assumption).
    now apply filter_all. }
  destruct rooted.
  - change ("/" +:+ Strings.Join out "/")
      with (String Separator (Strings.Join out "/")).
    now rewrite elements_slash.
  - exact Hbody.
Qed.

Lemma elements_or_dot (s : string) :
  elements (if String.eqb s EmptyString then "." else s) = elements s.
Proof.
  destruct (String.eqb s EmptyString) eqn:He; [|reflexivity].
  apply String.eqb_eq in He. now subst.
Qed.

Lemma filter_named_named (pieces : list string) :
  Forall (fun e => named e = true) (List.filter named pieces).
Proof.
  apply List.Forall_forall. intros e He.
  now apply List.filter_In in He as [_ He].
Qed.

Lemma filter_pieces_free (f : string -> bool) (path : string) :
  Forall (fun e => Strings.ContainsByte Separator e = false)
         (List.filter f (Strings.Split Separator path)).
Proof.
  pose proof (Split_pieces_free Separator path) as Hfree.
  rewrite List.Forall_forall in Hfree. apply List.Forall_forall.
  intros e He. apply List.filter_In in He as [He _]. now apply Hfree.
Qed.

(** [Clean] changes no element of a path that does not go upward. *)
Lemma Clean_elements (path : string) :
  upward path = false -> elements (Clean path) = elements path.
Proof.
  intros Hup. destruct path as [|c path']; [reflexivity|].
  unfold Clean. cbv zeta. rewrite elements_or_dot.
  rewrite cleanElem_fold by exact Hup.
  rewrite List.app_nil_r, List.rev_involutive.
  apply elements_written.
  - apply filter_named_named.
  - apply filter_pieces_free.
Qed.

Lemma elements_Strings_Join (elem : list string) :
  elements (Strings.Join elem "/") = concat (map elements elem).
Proof.
  destruct elem as [|e rest]; [reflexivity|].
  unfold elements. change "/" with (String Separator EmptyString).
  rewrite Split_Join by discriminate.
  rewrite <- List.concat_filter_map, List.map_map. reflexivity.
Qed.

Lemma Join_cons (e : string) (rest : list string) :
  Join (e :: rest)
  = if String.eqb e EmptyString then Join rest
    else Clean (Strings.Join (e :: rest) "/").
Proof. reflexivity. Qed.

(** [Join] of paths that do not go upward lists their elements one path
    after the other. *)
Lemma Join_elements (elem : list string) :
  Forall (fun e => upward e = false) elem ->
  elements (Join elem) = concat (map elements elem).
Proof.
  induction 1 as [|e rest He Hrest IH]; [reflexivity|].
  rewrite Join_cons. destruct (String.eqb e EmptyString) eqn:Hempty.
  - apply String.eqb_eq in Hempty. subst e. exact IH.
  - rewrite Clean_elements; [apply elements_Strings_Join|].
    unfold upward. rewrite elements_Strings_Join, existsb_concat.
    apply not_true_is_false. intros Hex.
    apply List.existsb_exists in Hex as [l [Hl Hl']].
    apply List.in_map_iff in Hl as [x [<- Hx]].
    assert (Hall : Forall (fun e => upward e = false) (e :: rest))
      by (now constructor).
    rewrite List.Forall_forall in Hall. specialize (Hall x Hx).
    unfold upward in Hall. congruence.
Qed.

(** A path joined onto a rooted first element is rooted. *)
Lemma Clean_IsAbs (path : string) : IsAbs path = true -> IsAbs (Clean path) = true.
Proof.
  destruct path as [|c path']; [discriminate|].
  unfold IsAbs. simpl. rewrite andb_true_r. intros Hc.
  unfold Clean. change Separator with "/"%char. rewrite Hc. reflexivity.
Qed.

End PathFacts.

(** The examples of the documentation of [Clean] and [Join]. *)
Example Clean_documented :
  filepath.Clean "a/c" = "a/c"
  /\ filepath.Clean "a//c" = "a/c"
  /\ filepath.Clean "a/c/." = "a/c"
  /\ filepath.Clean "a/c/b/.." = "a/c"
  /\ filepath.Clean "/../a/c" = "/a/c"
  /\ filepath.Clean "/../a/b/../././/c" = "/a/c"
  /\ filepath.Clean EmptyString = "."
  /\ filepath.Clean "../../a/.." = "../.."
  /\ filepath.Clean "/" = "/".
Proof. repeat split; reflexivity. Qed.

Example Join_documented :
  filepath.Join ["a"; "b"; "c"] = "a/b/c"
  /\ filepath.Join ["a"; "b/c"] = "a/b/c"
  /\ filepath.Join ["a/b"; "c"] = "a/b/c"
  /\ filepath.Join ["a/b"; "/c"] = "a/b/c"
  /\ filepath.Join ["a/b"; "../../../xyz"] = "../xyz"
  /\ filepath.Join [EmptyString; EmptyString] = EmptyString
  /\ filepath.Join ["a"; EmptyString] = "a"
  /\ filepath.Join [EmptyString; "a"] = "a".
Proof. repeat split; reflexivity. Qed.

(** ** Control-file paths *)

Section ControlFilePaths.

Import filepath system util.

Variable GetContainerCgroupParentDir :
  string -> corev1.ContainerStatus -> string * option error.

Lemma Join_IsAbs (e : string) (rest : list string) :
  IsAbs e = true -> IsAbs (Join (e :: rest)) = true.
Proof.
  intros Habs. rewrite Join_cons.
  destruct e as [|c e']; [discriminate|].
  cbn [String.eqb]. apply Clean_IsAbs.
  destruct rest; [exact Habs|].
  rewrite Join_cons2, append_cons. exact Habs.
Qed.

(** The path [GetContainerCgroupPath] returns once the descriptor and the
    container directory are found. *)
Lemma GetContainerCgroupPath_found sys podParentDir c rt resource containerPath :
  Registry sys !! rt = Some resource ->
  GetContainerCgroupParentDir podParentDir c = (containerPath, None) ->
  GetContainerCgroupPath GetContainerCgroupParentDir sys podParentDir c rt
  = (GetCgroupFilePath sys containerPath resource, None).
Proof.
  intros Hreg Hdir. unfold GetContainerCgroupPath, GetCgroupResource.
  now rewrite Hreg, Hdir.
Qed.

End ControlFilePaths.

(** The scenario of the documentation of [GetContainerCgroupPath]: the
    process list of a container under cgroup v1. *)
Example GetContainerCgroupPath_documented :
  util.GetContainerCgroupCPUProcsPath
    (util.containerCgroupParentDir (sample.sys system.CgroupVersionV1))
    (sample.sys system.CgroupVersionV1) sample.podParentDir sample.container
  = ("/sys/fs/cgroup/cpu/kubepods.slice/kubepods-burstable.slice/kubepods-pod7712555c.slice/docker-7712555c.scope/cgroup.procs",
     None).
Proof. reflexivity. Qed.

(** C1, as amended. Let the descriptor of the resource type and the cgroup
    directory of the container be found, and let none of the cgroup root,
    the subsystem, the container directory and the file name go upward
    (hold a [..] element). Then under cgroup v1 the control-file path
    consists of the elements of the root, of the subsystem, of the container
    directory and of the file name, in this order; under cgroup v2 it is the
    same path without the elements of the subsystem; both are rooted when the
    root is. The perf-event path of the container has the same two shapes,
    with [perf_event] for subsystem and no file name. *)
Theorem C1_version_switch
    (GetContainerCgroupParentDir :
       string -> corev1.ContainerStatus -> string * option error)
    (root : string) (formatter : system.Formatter)
    (procsName : system.ResourceType) (registry : gmap string system.Resource)
    (podParentDir : string) (c : corev1.ContainerStatus)
    (resourceType : system.ResourceType) (resource : system.Resource)
    (containerCgroupDir : string) :
  let sys v := {| system.CgroupRootDir := root;
                  system.CurrentCgroupVersion := v;
                  system.CgroupPathFormatter := formatter;
                  system.CPUProcsName := procsName;
                  system.Registry := registry |} in
  registry !! resourceType = Some resource ->
  GetContainerCgroupParentDir podParentDir c = (containerCgroupDir, None) ->
  filepath.upward root = false ->
  filepath.upward (system.Subfs resource) = false ->
  filepath.upward containerCgroupDir = false ->
  filepath.upward (system.FileName resource) = false ->
  (exists v1 v2,
      util.GetContainerCgroupPath GetContainerCgroupParentDir
        (sys system.CgroupVersionV1) podParentDir c resourceType = (v1, None)
      /\ util.GetContainerCgroupPath GetContainerCgroupParentDir
           (sys system.CgroupVersionV2) podParentDir c resourceType = (v2, None)
      /\ filepath.elements v1
         = filepath.elements root ++ filepath.elements (system.Subfs resource)
           ++ filepath.elements containerCgroupDir
           ++ filepath.elements (system.FileName resource)
      /\ filepath.elements v2
         = filepath.elements root ++ filepath.elements containerCgroupDir
           ++ filepath.elements (system.FileName resource)
      /\ (filepath.IsAbs root = true ->
          filepath.IsAbs v1 = true /\ filepath.IsAbs v2 = true))
  /\ (exists v1 v2,
      util.GetContainerCgroupPerfPath GetContainerCgroupParentDir
        (sys system.CgroupVersionV1) podParentDir c = (v1, None)
      /\ util.GetContainerCgroupPerfPath GetContainerCgroupParentDir
           (sys system.CgroupVersionV2) podParentDir c = (v2, None)
      /\ filepath.elements v1
         = filepath.elements root ++ ["perf_event"]
           ++ filepath.elements containerCgroupDir
      /\ filepath.elements v2
         = filepath.elements root ++ filepath.elements containerCgroupDir
      /\ (filepath.IsAbs root = true ->
          filepath.IsAbs v1 = true /\ filepath.IsAbs v2 = true)).
Proof.
  intros sys Hreg Hdir Hroot Hsub Hcdir Hfile. split.
  - exists (system.GetCgroupFilePath (sys system.CgroupVersionV1)
              containerCgroupDir resource),
           (system.GetCgroupFilePath (sys system.CgroupVersionV2)
              containerCgroupDir resource).
    split; [now apply GetContainerCgroupPath_found|].
    split; [now apply GetContainerCgroupPath_found|].
    unfold system.GetCgroupFilePath. cbn [system.CurrentCgroupVersion sys
      system.CgroupRootDir].
    rewrite !Join_elements by (repeat constructor; assumption).
    cbn [map concat]. rewrite !List.app_nil_r.
    repeat split; try reflexivity; now apply Join_IsAbs.
  - unfold util.GetContainerCgroupPerfPath. rewrite Hdir.
    cbn [system.CurrentCgroupVersion sys system.CgroupRootDir].
    eexists _, _. split; [reflexivity|]. split; [reflexivity|].
    rewrite !Join_elements by (repeat constructor; assumption || reflexivity).
    cbn [map concat]. rewrite !List.app_nil_r.
    repeat split; try reflexivity; now apply Join_IsAbs.
Qed.

Lemma C1_version_switch_witness :
  exists v1 v2,
    util.GetContainerCgroupPath (util.containerCgroupParentDir
                                   (sample.sys system.CgroupVersionV1))
      (sample.sys system.CgroupVersionV1)
      sample.podParentDir sample.container "cgroup.procs" = (v1, None)
    /\ util.GetContainerCgroupPath (util.containerCgroupParentDir
                                      (sample.sys system.CgroupVersionV1))
         (sample.sys system.CgroupVersionV2)
         sample.podParentDir sample.container "cgroup.procs" = (v2, None)
    /\ filepath.elements v1
       = ["sys"; "fs"; "cgroup"; "cpu"; "kubepods.slice"; "kubepods-burstable.slice";
          "kubepods-pod7712555c.slice"; "docker-7712555c.scope"; "cgroup.procs"]
    /\ filepath.elements v2
       = ["sys"; "fs"; "cgroup"; "kubepods.slice"; "kubepods-burstable.slice";
          "kubepods-pod7712555c.slice"; "docker-7712555c.scope"; "cgroup.procs"].
Proof.
  destruct (C1_version_switch
              (util.containerCgroupParentDir (sample.sys system.CgroupVersionV1))
              "/sys/fs/cgroup" (system.scopeFormatter "kubepods.slice/" "docker-")
              "cgroup.procs" sample.registry
              sample.podParentDir sample.container "cgroup.procs"
              {| system.Subfs := "cpu"; system.FileName := "cgroup.procs" |}
              "kubepods.slice/kubepods-burstable.slice/kubepods-pod7712555c.slice/docker-7712555c.scope")
    as [(v1 & v2 & H1 & H2 & E1 & E2 & _) _]; try reflexivity.
  exists v1, v2. repeat split; assumption.
Defined.

(** C1, as stated, fails for a pod directory that steps out of its parent:
    the cgroup v1 path then holds no subsystem element, and the cgroup v2
    path differs from it in the root as well. *)
Lemma C1_counterexample :
  let dirOf := util.containerCgroupParentDir (sample.sys system.CgroupVersionV1) in
  dirOf sample.upwardPodParentDir sample.container
  = ("../kubepods-pod7712555c.slice/docker-7712555c.scope", None)
  /\ util.GetContainerCgroupPerfPath dirOf (sample.sys system.CgroupVersionV1)
       sample.upwardPodParentDir sample.container
     = ("/sys/fs/cgroup/kubepods-pod7712555c.slice/docker-7712555c.scope", None)
  /\ util.GetContainerCgroupPerfPath dirOf (sample.sys system.CgroupVersionV2)
       sample.upwardPodParentDir sample.container
     = ("/sys/fs/kubepods-pod7712555c.slice/docker-7712555c.scope", None)
  /\ util.GetContainerCgroupPath dirOf (sample.sys system.CgroupVersionV1)
       sample.upwardPodParentDir sample.container "cgroup.procs"
     = ("/sys/fs/cgroup/kubepods-pod7712555c.slice/docker-7712555c.scope/cgroup.procs",
        None)
  /\ ~ In "perf_event"
       (filepath.elements
          "/sys/fs/cgroup/kubepods-pod7712555c.slice/docker-7712555c.scope")
  /\ ~ In "cpu"
       (filepath.elements
          "/sys/fs/cgroup/kubepods-pod7712555c.slice/docker-7712555c.scope/cgroup.procs").
Proof.
  cbv zeta. repeat split; try reflexivity.
  - vm_compute. intuition discriminate.
  - vm_compute. intuition discriminate.
Qed.

(** C3. For a resource type that the descriptor table does not hold,
    [GetContainerCgroupPath] returns the empty path together with an error
    that names the resource type, whatever the pod directory, the container
    and the cgroup version are, and whatever the lookup of the container
    directory would have answered. *)
Theorem C3_unknown_resource_type
    (GetContainerCgroupParentDir :
       string -> corev1.ContainerStatus -> string * option error)
    (sys : system.System) (podParentDir : string) (c : corev1.ContainerStatus)
    (resourceType : system.ResourceType) :
  system.Registry sys !! resourceType = None ->
  exists cause,
    util.GetContainerCgroupPath GetContainerCgroupParentDir sys podParentDir c
      resourceType
    = (EmptyString,
       Some ("failed to get resource type " +:+ resourceType
             +:+ ", err: " +:+ cause)).
Proof.
  intros Hnone. unfold util.GetContainerCgroupPath, system.GetCgroupResource.
  rewrite Hnone. eexists. reflexivity.
Qed.

Lemma C3_unknown_resource_type_witness :
  exists cause,
    util.GetContainerCgroupPath
      (util.containerCgroupParentDir (sample.sys system.CgroupVersionV1))
      (sample.sys system.CgroupVersionV1) sample.podParentDir sample.container
      "cpu.cfs_quota_us"
    = (EmptyString,
       Some ("failed to get resource type " +:+ "cpu.cfs_quota_us"
             +:+ ", err: " +:+ cause)).
Proof.
  apply (C3_unknown_resource_type
           (util.containerCgroupParentDir (sample.sys system.CgroupVersionV1))
           (sample.sys system.CgroupVersionV1) sample.podParentDir
           sample.container "cpu.cfs_quota_us").
  reflexivity.
Defined.

(** ** Container naming conventions *)

Section NamingFacts.

Import system.

Lemma scopeContainerIDParser_format (prefix id : string) :
  scopeContainerIDParser prefix (prefix +:+ id +:+ scopeSuffix) = (id, None).
Proof.
  unfold scopeContainerIDParser.
  rewrite HasPrefix_append.
  rewrite <- append_assoc, HasSuffix_append. cbn [andb].
  rewrite append_assoc, drop_append.
  rewrite !length_append.
  replace (String.length prefix
           + (String.length id + String.length scopeSuffix)
           - String.length prefix - String.length scopeSuffix)
    with (String.length id) by lia.
  now rewrite take_append.
Qed.

End NamingFacts.

(** C2. For each naming convention the spec names (a scope-suffixed one for
    any runtime prefix, and the directory one) and for every container
    identity, [ParseContainerID] applied to the formatted directory name
    returns the identity and no error. *)
Theorem C2_parse_format_roundtrip (sys : system.System) (id : string) :
  system.supported (system.CgroupPathFormatter sys) ->
  util.ParseContainerID sys
    (system.ContainerDirFn (system.CgroupPathFormatter sys) id)
  = (id, None).
Proof.
  unfold util.ParseContainerID. intros Hsupported.
  destruct Hsupported as [parentDir prefix|parentDir]; cbn [system.ContainerDirFn
    system.ContainerIDParser system.scopeFormatter system.dirFormatter].
  - apply scopeContainerIDParser_format.
  - reflexivity.
Qed.

Lemma C2_parse_format_roundtrip_witness :
  util.ParseContainerID (sample.sys system.CgroupVersionV1)
    "docker-7712555c_ce62_454a_9e18_9ff0217b8941.scope"
  = ("7712555c_ce62_454a_9e18_9ff0217b8941", None).
Proof.
  apply (C2_parse_format_roundtrip (sample.sys system.CgroupVersionV1)
           "7712555c_ce62_454a_9e18_9ff0217b8941").
  apply system.supported_scope.
Defined.

(** ** Process lists *)

Section ProcessListFacts.

Import system.

Lemma parseDigits_not_digits (s : string) (acc : N) :
  allDigits s = false -> parseDigits s acc = None.
Proof.
  revert acc. induction s as [|c s IH]; intros acc; simpl; [discriminate|].
  destruct (isDigit c); simpl; [apply IH | reflexivity].
Qed.

Lemma parseUint32_not_decimal (line : string) :
  isDecimal line = false -> parseUint32 line = None.
Proof.
  unfold isDecimal, parseUint32. destruct line as [|c line']; [reflexivity|].
  cbn [String.eqb negb andb]. intros Hdigits.
  now rewrite parseDigits_not_digits.
Qed.

(** One bad line makes the whole parse fail, with nothing returned. *)
Lemma parseProcLines_bad_line (ls : list string) (line : string) :
  In line ls -> line <> EmptyString -> isDecimal line = false ->
  exists err, parseProcLines ls = ([], Some err).
Proof.
  intros Hin Hne Hbad. induction ls as [|l rest IH]; [destruct Hin|].
  cbn [parseProcLines]. destruct (String.eqb l EmptyString) eqn:Hempty.
  - apply String.eqb_eq in Hempty. subst l.
    destruct Hin as [Heq|Hin]; [congruence | now apply IH].
  - destruct (parseUint32 l) as [pid|] eqn:Hparse; [|eexists; reflexivity].
    destruct Hin as [Heq|Hin].
    + subst l. rewrite parseUint32_not_decimal in Hparse by exact Hbad.
      discriminate.
    + destruct (IH Hin) as [err ->]. eexists; reflexivity.
Qed.

End ProcessListFacts.

(** C4. The parse step of [GetPIDsInContainer] maps the three-line list
    123, 456, 789 to these three numbers and the empty content to no number,
    both without error; content with a non-empty line that is not a decimal
    integer gives an error and no number at all; and [GetPIDsInContainer]
    returns what the parse step returns for the content of the process file
    of the container, once that file is found and read. *)
Theorem C4_process_list_parsing :
  system.ParseCgroupProcs sample.procs = ([123; 456; 789]%N, None)
  /\ system.ParseCgroupProcs EmptyString = ([], None)
  /\ (forall content line,
         In line (system.lines content) ->
         line <> EmptyString ->
         system.isDecimal line = false ->
         exists err, system.ParseCgroupProcs content = ([], Some err))
  /\ (forall GetContainerCgroupParentDir ReadFile sys podParentDir c
             cgroupPath rawContent,
         util.GetContainerCgroupCPUProcsPath GetContainerCgroupParentDir sys
           podParentDir c = (cgroupPath, None) ->
         ReadFile cgroupPath = (rawContent, None) ->
         util.GetPIDsInContainer GetContainerCgroupParentDir ReadFile sys
           podParentDir c
         = system.ParseCgroupProcs rawContent).
Proof.
  split; [reflexivity|]. split; [reflexivity|]. split.
  - intros content line. apply parseProcLines_bad_line.
  - intros dirOf ReadFile sys podParentDir c cgroupPath rawContent Hpath Hread.
    unfold util.GetPIDsInContainer. now rewrite Hpath, Hread.
Qed.

Lemma C4_process_list_parsing_witness :
  (exists err, system.ParseCgroupProcs sample.badProcs = ([], Some err))
  /\ util.GetPIDsInContainer
       (util.containerCgroupParentDir (sample.sys system.CgroupVersionV1))
       (sample.readFile sample.procs) (sample.sys system.CgroupVersionV1)
       sample.podParentDir sample.container
     = ([123; 456; 789]%N, None).
Proof.
  destruct C4_process_list_parsing as (Hprocs & _ & Hbad & Hall). split.
  - apply (Hbad sample.badProcs "4x6").
    + vm_compute. tauto.
    + discriminate.
    + reflexivity.
  - rewrite <- Hprocs.
    apply (Hall _ _ _ _ _
             "/sys/fs/cgroup/cpu/kubepods.slice/kubepods-burstable.slice/kubepods-pod7712555c.slice/docker-7712555c.scope/cgroup.procs");
      reflexivity.
Defined.

(** ** Plugin registries *)

Section RegistryFacts.

Context `{MapRange}.

(** A [range] loop meets exactly the entries of the map. *)
Lemma range_lookup {A} i (m : gmap string A) (k : string) (v : A) :
  In (k, v) (range i m) <-> m !! k = Some v.
Proof.
  rewrite <- elem_of_map_to_list, <- list_elem_of_In.
  now rewrite (range_perm i A m).
Qed.

Lemma range_NoDup_keys {A} i (m : gmap string A) :
  NoDup (map fst (range i m)).
Proof.
  pose proof (NoDup_fst_map_to_list m) as Hnd.
  change (map fst (range i m)) with ((range i m).*1).
  now rewrite (range_perm i A m).
Qed.

Lemma hasSyncedLoop_forallb objs (entries : list (string * impl.informerPlugin)) :
  impl.hasSyncedLoop objs entries = forallb (fun e => objs (snd e)) entries.
Proof.
  induction entries as [|[name p] rest IH]; [reflexivity|].
  cbn [impl.hasSyncedLoop forallb snd]. destruct (objs p); simpl; auto.
Qed.

Lemma collectorsHasStartedLoop_forallb
    (entries : list (string * framework.Collector)) :
  framework.collectorsHasStartedLoop entries
  = forallb (fun e => implb (framework.Enabled (snd e))
                            (framework.Started (snd e))) entries.
Proof.
  induction entries as [|[name c] rest IH]; [reflexivity|].
  cbn [framework.collectorsHasStartedLoop forallb snd].
  destruct (framework.Enabled c), (framework.Started c); simpl; auto.
Qed.

Lemma informer_HasSynced_iff (s : impl.statesInformer) objs :
  impl.HasSynced s objs = true
  <-> forall name p,
        impl.informerPlugins (impl.states s) !! name = Some p -> objs p = true.
Proof.
  unfold impl.HasSynced. rewrite hasSyncedLoop_forallb, forallb_forall. split.
  - intros Hall name p Hp. apply (Hall (name, p)). now apply range_lookup.
  - intros Hall [name p] Hin. apply (Hall name). now apply range_lookup in Hin.
Qed.

Lemma advisor_HasSynced_iff (m : metricsadvisor.metricAdvisor) :
  metricsadvisor.HasSynced m = true
  <-> forall name c,
        framework.Collectors (metricsadvisor.context m) !! name = Some c ->
        framework.Enabled c = true -> framework.Started c = true.
Proof.
  unfold metricsadvisor.HasSynced, framework.CollectorsHasStarted.
  rewrite collectorsHasStartedLoop_forallb, forallb_forall. split.
  - intros Hall name c Hc Hen. apply range_lookup with (i := 0) in Hc.
    specialize (Hall _ Hc). cbn [snd] in Hall. rewrite Hen in Hall. exact Hall.
  - intros Hall [name c] Hin. apply range_lookup in Hin. cbn [snd].
    destruct (framework.Enabled c) eqn:Hen; [|reflexivity].
    simpl. now apply (Hall name).
Qed.

End RegistryFacts.

(** C5. In whatever order the registry is visited: the informer's
    [HasSynced] is true exactly when every registered plugin answers true to
    its own [HasSynced]; the advisor's [HasSynced] is true exactly when every
    registered collector that is enabled answers true to [Started]; and a
    registry to which an unsynced plugin, or an enabled collector that has not
    started, is added has a false aggregate. *)
Theorem C5_aggregate_readiness `{MapRange} :
  (forall (s : impl.statesInformer) (objs : impl.pluginObjects),
      impl.HasSynced s objs = true
      <-> forall name p,
            impl.informerPlugins (impl.states s) !! name = Some p ->
            objs p = true)
  /\ (forall (m : metricsadvisor.metricAdvisor),
      metricsadvisor.HasSynced m = true
      <-> forall name c,
            framework.Collectors (metricsadvisor.context m) !! name = Some c ->
            framework.Enabled c = true -> framework.Started c = true)
  /\ (forall (s : impl.statesInformer) (objs : impl.pluginObjects) name p,
      objs p = false ->
      impl.HasSynced
        {| impl.states :=
             {| impl.informerPlugins :=
                  <[name := p]> (impl.informerPlugins (impl.states s)) |};
           impl.started := impl.started s |} objs = false)
  /\ (forall (m : metricsadvisor.metricAdvisor) name c,
      framework.Enabled c = true -> framework.Started c = false ->
      metricsadvisor.HasSynced
        {| metricsadvisor.options := metricsadvisor.options m;
           metricsadvisor.context :=
             {| framework.Collectors :=
                  <[name := c]>
                    (framework.Collectors (metricsadvisor.context m)) |} |}
      = false).
Proof.
  split; [apply informer_HasSynced_iff|]. split; [apply advisor_HasSynced_iff|].
  split.
  - intros s objs name p Hp. apply not_true_is_false. intros Hsynced.
    rewrite informer_HasSynced_iff in Hsynced.
    specialize (Hsynced name p). cbn in Hsynced.
    rewrite lookup_insert_eq in Hsynced. specialize (Hsynced eq_refl). congruence.
  - intros m name c Hen Hst. apply not_true_is_false. intros Hsynced.
    rewrite advisor_HasSynced_iff in Hsynced.
    specialize (Hsynced name c). cbn in Hsynced.
    rewrite lookup_insert_eq in Hsynced. specialize (Hsynced eq_refl Hen).
    congruence.
Qed.

Lemma C5_aggregate_readiness_witness :
  impl.HasSynced sample.informer sample.allSynced = true
  /\ impl.HasSynced sample.informer sample.onlyFirstSynced = false
  /\ metricsadvisor.HasSynced (sample.advisor 1000000000 sample.collectors) = true
  /\ metricsadvisor.HasSynced
       (sample.advisor 1000000000
          (<["LateCollector" := sample.lateCollector]> sample.collectors))
     = false.
Proof.
  destruct (@C5_aggregate_readiness canonicalRange)
    as (Hinformer & Hadvisor & Hplugin & Hcollector).
  split; [apply Hinformer; reflexivity|].
  split; [apply (Hplugin sample.informer sample.onlyFirstSynced "podsInformer" 1);
          reflexivity|].
  split.
  - apply Hadvisor. intros name c Hc Hen.
    unfold sample.advisor, sample.collectors in Hc. cbn in Hc.
    apply lookup_insert_Some in Hc as [[_ <-]|[_ Hc]]; [reflexivity|].
    apply lookup_singleton_Some in Hc as [_ <-]. discriminate Hen.
  - apply (Hcollector (sample.advisor 1000000000 sample.collectors)
             "LateCollector" sample.lateCollector); reflexivity.
Defined.

(** ** The informer's [Run] *)

Section RunFacts.

Context `{MapRange}.

Lemma waitForSyncFunc_map (s : impl.statesInformer) :
  impl.waitForSyncFunc s
  = map snd (range 2 (impl.informerPlugins (impl.states s))).
Proof.
  unfold impl.waitForSyncFunc.
  enough (Hgen : forall (entries : list (string * impl.informerPlugin)) acc,
             fold_left (fun waitInformersSynced '(_, p) =>
                          waitInformersSynced ++ [p]) entries acc
             = acc ++ map snd entries) by apply Hgen.
  induction entries as [|[name p] rest IH]; intros acc; simpl.
  - now rewrite List.app_nil_r.
  - now rewrite IH, <- List.app_assoc.
Qed.

(** The functions [Run] waits for answer true together exactly when the
    aggregate [HasSynced] does. *)
Lemma waitForSyncFunc_HasSynced (s : impl.statesInformer) objs :
  forallb objs (impl.waitForSyncFunc s) = impl.HasSynced s objs.
Proof.
  apply eq_true_iff_eq. rewrite informer_HasSynced_iff.
  rewrite waitForSyncFunc_map, forallb_forall. split.
  - intros Hall name p Hp. apply Hall, List.in_map_iff.
    exists (name, p). split; [reflexivity | now apply range_lookup].
  - intros Hall p Hin. apply List.in_map_iff in Hin as [[name q] [<- Hin]].
    apply range_lookup in Hin. now apply (Hall name).
Qed.

Lemma stopWins_Some w tick T :
  impl.stopWins w tick = Some T -> impl.stopAt w = Some T /\ T <= tick.
Proof.
  unfold impl.stopWins. destruct (impl.stopAt w) as [T'|]; [|discriminate].
  destruct (T' <? tick)%nat eqn:Hlt; destruct (T' =? tick)%nat eqn:Heq;
    destruct (impl.tickFirst w); cbn; try discriminate; intros [= <-];
    (split; [reflexivity|]);
    try (apply Nat.ltb_lt in Hlt; lia); apply Nat.eqb_eq in Heq; lia.
Qed.

Lemma stopWins_None_le w tick T :
  impl.stopAt w = Some T -> impl.stopWins w tick = None -> tick <= T.
Proof.
  unfold impl.stopWins. intros ->.
  destruct (T <? tick)%nat eqn:Hlt; [discriminate|].
  intros _. apply Nat.ltb_ge in Hlt. exact Hlt.
Qed.

(** The channel that has not ended the wait for a tick has not ended the
    wait for an earlier one. *)
Lemma stopWins_None_mono w tick tick' :
  tick' <= tick -> impl.stopWins w tick = None -> impl.stopWins w tick' = None.
Proof.
  unfold impl.stopWins. intros Hle. destruct (impl.stopAt w) as [T|]; [|reflexivity].
  destruct (T <? tick)%nat eqn:Hlt; [discriminate|]. apply Nat.ltb_ge in Hlt.
  destruct (T <? tick')%nat eqn:Hlt'; [apply Nat.ltb_lt in Hlt'; lia|].
  destruct (T =? tick')%nat eqn:Heq'; [|intros _; reflexivity].
  apply Nat.eqb_eq in Heq'. replace tick with T by lia.
  rewrite Nat.eqb_refl. intros Hwins. exact Hwins.
Qed.

Lemma polled_S w k :
  impl.polled w (S k) = true
  <-> impl.stopWins w (S k * impl.syncedPollPeriod) = None.
Proof.
  unfold impl.polled.
  destruct (impl.stopWins w (S k * impl.syncedPollPeriod)); split;
    congruence.
Qed.

(** No poll is made after the instant at which the channel is closed. *)
Lemma polled_stop w T k :
  impl.stopAt w = Some T -> impl.polled w k = true ->
  k * impl.syncedPollPeriod <= T.
Proof.
  intros Hstop Hk. destruct k as [|k]; [cbn; lia|].
  apply polled_S in Hk. now apply (stopWins_None_le w).
Qed.

(** Polling gives up at the instant the channel is closed when no poll
    made by then has found the functions all answering true. *)
Lemma pollLoop_timeout w cacheSyncs T :
  impl.stopAt w = Some T ->
  (forall k, impl.polled w k = true ->
             forallb (impl.syncedAt w (k * impl.syncedPollPeriod)) cacheSyncs
             = false) ->
  forall fuel k,
    k * impl.syncedPollPeriod <= T ->
    T < (k + fuel) * impl.syncedPollPeriod ->
    impl.pollLoop fuel w cacheSyncs k = Some (false, T).
Proof.
  intros Hstop Hnot. induction fuel as [|fuel IH]; intros k Hk Hfuel.
  - rewrite Nat.add_0_r in Hfuel. lia.
  - cbn [impl.pollLoop].
    destruct (impl.stopWins w (S k * impl.syncedPollPeriod)) as [T'|] eqn:Hwins.
    + apply stopWins_Some in Hwins as [Hstop' _]. congruence.
    + rewrite (Hnot (S k)) by now apply polled_S.
      apply IH.
      * now apply (stopWins_None_le w).
      * replace (S k + fuel) with (k + S fuel) by lia. exact Hfuel.
Qed.

(** Polling succeeds at the first poll that finds the functions all
    answering true, when the channel has not ended the wait by then. *)
Lemma pollLoop_synced w cacheSyncs k1 :
  impl.stopWins w (k1 * impl.syncedPollPeriod) = None ->
  forallb (impl.syncedAt w (k1 * impl.syncedPollPeriod)) cacheSyncs = true ->
  (forall k, k < k1 ->
             forallb (impl.syncedAt w (k * impl.syncedPollPeriod)) cacheSyncs
             = false) ->
  forall fuel k, k < k1 -> k1 <= k + fuel ->
    impl.pollLoop fuel w cacheSyncs k
    = Some (true, k1 * impl.syncedPollPeriod).
Proof.
  intros Hwins Hsync Hbefore. induction fuel as [|fuel IH]; intros k Hk Hfuel;
    [lia|].
  cbn [impl.pollLoop].
  rewrite (stopWins_None_mono w (k1 * impl.syncedPollPeriod)); [|nia|exact Hwins].
  destruct (Nat.eq_dec (S k) k1) as [<-|Hne].
  - now rewrite Hsync.
  - rewrite (Hbefore (S k)) by lia. apply IH; lia.
Qed.

(** What a result of the polling loop tells. *)
Lemma pollLoop_inv w cacheSyncs fuel k b t :
  impl.pollLoop fuel w cacheSyncs k = Some (b, t) ->
  if b
  then exists k', t = k' * impl.syncedPollPeriod
                  /\ impl.polled w k' = true
                  /\ forallb (impl.syncedAt w t) cacheSyncs = true
  else impl.stopAt w = Some t.
Proof.
  revert k. induction fuel as [|fuel IH]; intros k; cbn [impl.pollLoop];
    [discriminate|].
  destruct (impl.stopWins w (S k * impl.syncedPollPeriod)) as [T|] eqn:Hwins.
  - intros [= <- <-]. now apply stopWins_Some in Hwins as [Hstop _].
  - destruct (forallb (impl.syncedAt w (S k * impl.syncedPollPeriod)) cacheSyncs)
      eqn:Hsync; [|apply IH].
    intros [= <- <-]. exists (S k). split; [reflexivity|].
    split; [now apply polled_S | exact Hsync].
Qed.

Lemma WaitForCacheSync_inv w cacheSyncs fuel b t :
  impl.WaitForCacheSync fuel w cacheSyncs = Some (b, t) ->
  if b
  then exists k', t = k' * impl.syncedPollPeriod
                  /\ impl.polled w k' = true
                  /\ forallb (impl.syncedAt w t) cacheSyncs = true
  else impl.stopAt w = Some t.
Proof.
  unfold impl.WaitForCacheSync.
  destruct (forallb (impl.syncedAt w 0) cacheSyncs) eqn:Hsync;
    [|apply pollLoop_inv].
  intros [= <- <-]. exists 0. split; [reflexivity|]. split; [reflexivity|].
  exact Hsync.
Qed.

End RunFacts.

(** C6. [Run] learns that the plugins have synced by polling their
    [HasSynced]: poll 0 at once, poll [k] at instant [k * syncedPollPeriod]
    unless the closed channel has ended the wait before. In whatever order
    the registry is visited:
    - when the channel is closed and no poll that is made finds the plugins
      all answering true, [Run] returns, at the instant the channel is
      closed, the error "timed out waiting for states informer caches to
      sync", the started flag being left as it was;
    - when a poll that is made finds the plugins all answering true, for
      the first time, [Run] sets the started flag, and then returns nil at
      the instant the channel is closed, or stays blocked when it never is;
    - [Run] returns at no instant at which the channel is still open;
    - [Run] returns nil only with the started flag set and after a poll has
      found the plugins all answering true, and the only error it returns is
      the one above, with the informer left as it was. *)
Theorem C6_run_barrier `{MapRange} (w : impl.world) (s : impl.statesInformer) :
  let log := impl.setupPlugins s ++ impl.startPlugins s in
  let started := {| impl.states := impl.states s; impl.started := true |} in
  (forall T,
      impl.stopAt w = Some T ->
      (forall k, impl.polled w k = true ->
                 impl.HasSynced s (impl.syncedAt w (k * impl.syncedPollPeriod))
                 = false) ->
      forall fuel, T < fuel * impl.syncedPollPeriod ->
        impl.Run fuel w s = impl.Returned (Some impl.errTimedOut) s log T)
  /\ (forall k1,
      impl.polled w k1 = true ->
      impl.HasSynced s (impl.syncedAt w (k1 * impl.syncedPollPeriod)) = true ->
      (forall k, k < k1 ->
                 impl.HasSynced s (impl.syncedAt w (k * impl.syncedPollPeriod))
                 = false) ->
      forall fuel, k1 <= fuel ->
        impl.Run fuel w s
        = match impl.stopAt w with
          | Some T => impl.Returned None started log T
          | None => impl.Blocked started log
          end)
  /\ (forall fuel err s' log' t,
      impl.Run fuel w s = impl.Returned err s' log' t ->
      impl.stopped w t = true)
  /\ (forall fuel err s' log' t,
      impl.Run fuel w s = impl.Returned err s' log' t ->
      match err with
      | None =>
          s' = started
          /\ exists k,
               impl.polled w k = true
               /\ impl.HasSynced s (impl.syncedAt w (k * impl.syncedPollPeriod))
                  = true
      | Some e => e = impl.errTimedOut /\ s' = s
      end).
Proof.
  intros log started. split; [|split; [|split]].
  - intros T Hstop Hnot fuel Hfuel. unfold impl.Run, impl.WaitForCacheSync.
    assert (Hnot' : forall k, impl.polled w k = true ->
              forallb (impl.syncedAt w (k * impl.syncedPollPeriod))
                      (impl.waitForSyncFunc s) = false).
    { intros k Hk. rewrite waitForSyncFunc_HasSynced. now apply Hnot. }
    pose proof (Hnot' 0 eq_refl) as Hnot0.
    change (0 * impl.syncedPollPeriod) with 0 in Hnot0. rewrite Hnot0.
    rewrite (pollLoop_timeout w _ T Hstop Hnot'); [reflexivity | cbn; lia | exact Hfuel].
  - intros k1 Hpolled Hsync Hbefore fuel Hfuel.
    rewrite <- waitForSyncFunc_HasSynced in Hsync.
    assert (Hbefore' : forall k, k < k1 ->
              forallb (impl.syncedAt w (k * impl.syncedPollPeriod))
                      (impl.waitForSyncFunc s) = false).
    { intros k Hk. rewrite waitForSyncFunc_HasSynced. now apply Hbefore. }
    assert (Hmax : forall T, impl.stopAt w = Some T ->
              Nat.max (k1 * impl.syncedPollPeriod) T = T).
    { intros T Hstop. apply Nat.max_r. now apply (polled_stop w). }
    unfold impl.Run, impl.WaitForCacheSync.
    destruct k1 as [|k1].
    + change (0 * impl.syncedPollPeriod) with 0 in Hsync. rewrite Hsync.
      destruct (impl.stopAt w) as [T|] eqn:Hstop; [|reflexivity].
      now rewrite Nat.max_0_l.
    + pose proof (Hbefore' 0 ltac:(lia)) as Hnot0.
      change (0 * impl.syncedPollPeriod) with 0 in Hnot0. rewrite Hnot0.
      apply polled_S in Hpolled.
      rewrite (pollLoop_synced w _ (S k1) Hpolled Hsync Hbefore') by lia.
      destruct (impl.stopAt w) as [T|] eqn:Hstop; [|reflexivity].
      now rewrite (Hmax T).
  - intros fuel err s' log' t. unfold impl.Run.
    destruct (impl.WaitForCacheSync fuel w (impl.waitForSyncFunc s))
      as [[[|] t']|] eqn:Hwait; [| |discriminate].
    + destruct (impl.stopAt w) as [T|] eqn:Hstop; [|discriminate].
      intros [= _ _ _ <-]. unfold impl.stopped. rewrite Hstop.
      apply Nat.leb_le. lia.
    + intros [= _ _ _ <-]. apply WaitForCacheSync_inv in Hwait.
      unfold impl.stopped. rewrite Hwait. apply Nat.leb_refl.
  - intros fuel err s' log' t. unfold impl.Run.
    destruct (impl.WaitForCacheSync fuel w (impl.waitForSyncFunc s))
      as [[[|] t']|] eqn:Hwait; [| |discriminate].
    + destruct (impl.stopAt w) as [T|] eqn:Hstop; [|discriminate].
      intros [= <- <- _ _]. split; [reflexivity|].
      apply WaitForCacheSync_inv in Hwait as (k & -> & Hpolled & Hsync).
      exists k. split; [exact Hpolled|].
      now rewrite <- waitForSyncFunc_HasSynced.
    + intros [= <- <- _ _]. split; reflexivity.
Qed.

Lemma C6_run_barrier_witness :
  impl.Run 10 sample.earlyStop sample.informer
  = impl.Returned (Some impl.errTimedOut) sample.informer
      (impl.setupPlugins sample.informer ++ impl.startPlugins sample.informer)
      120
  /\ impl.Run 10 sample.lateStop sample.informer
     = impl.Returned None
         {| impl.states := impl.states sample.informer; impl.started := true |}
         (impl.setupPlugins sample.informer ++ impl.startPlugins sample.informer)
         500.
Proof.
  split.
  - destruct (@C6_run_barrier canonicalRange sample.earlyStop sample.informer)
      as (Htimeout & _ & _ & _).
    apply (Htimeout 120); [reflexivity | | apply Nat.ltb_lt; reflexivity].
    intros k Hk. apply (polled_stop sample.earlyStop 120) in Hk; [|reflexivity].
    assert (Hcase : k = 0 \/ k = 1) by (unfold impl.syncedPollPeriod in Hk; lia).
    destruct Hcase as [-> | ->]; reflexivity.
  - destruct (@C6_run_barrier canonicalRange sample.lateStop sample.informer)
      as (_ & Hsynced & _ & _).
    apply (Hsynced 2); [reflexivity | reflexivity | | lia].
    intros k Hk. assert (Hcase : k = 0 \/ k = 1) by lia.
    destruct Hcase as [-> | ->]; reflexivity.
Defined.

(** The plugins have all synced from instant 30 on, the channel is closed
    at instant 60, and [Run] returns the error with the started flag unset:
    the only poll made is the one of instant 0. *)
Lemma C6_counterexample :
  let w := sample.syncedBetweenPolls in
  impl.HasSynced sample.informer (impl.syncedAt w 30) = true
  /\ impl.HasSynced sample.informer (impl.syncedAt w 60) = true
  /\ impl.stopped w 30 = false
  /\ impl.stopAt w = Some 60
  /\ impl.polled w 1 = false
  /\ impl.Run 10 w sample.informer
     = impl.Returned (Some impl.errTimedOut) sample.informer
         (impl.setupPlugins sample.informer ++ impl.startPlugins sample.informer)
         60
  /\ impl.started sample.informer = false.
Proof. cbv zeta. repeat split; vm_compute; reflexivity. Qed.

(** ** The node CPU info collector *)

Section CollectorFacts.

Context {ProcessorInfo CPUTotalInfo : Type}.
Variable NodeCPUInfoKey : string.

Lemma collectNodeInfo_failed err
    (n : nodeinfo.nodeInfoCollector ProcessorInfo CPUTotalInfo) :
  nodeinfo.collectNodeInfo NodeCPUInfoKey (inr err) n = n.
Proof. reflexivity. Qed.

Lemma Until_skips_failed
    (cycles : list (nodeinfo.LocalCPUInfo ProcessorInfo CPUTotalInfo + error)) n :
  nodeinfo.Until NodeCPUInfoKey cycles n
  = nodeinfo.Until NodeCPUInfoKey (List.filter nodeinfo.succeeded cycles) n.
Proof.
  revert n. induction cycles as [|[info|err] rest IH]; intros n;
    [reflexivity | apply IH | apply IH].
Qed.

End CollectorFacts.

(** C7. One cycle of the node CPU info collector, from any state [n]:
    - when the gathering fails, [collectNodeCPUInfo] returns the error with
      the collector as it was, and [collectNodeInfo] leaves the collector as
      it was: same cache, no call of [Set], same started flag;
    - when the gathering succeeds, [collectNodeCPUInfo] calls [Set] once,
      for the key of the node CPU info and the value built from what was
      gathered, with the started flag still as it was, and [collectNodeInfo]
      then has the flag set; no other key of the cache changes;
    - the cycles that fail change nothing for the others: a run of cycles
      ends in the state that its successful cycles alone lead to. *)
Theorem C7_collection_cycle {ProcessorInfo CPUTotalInfo : Type}
    (NodeCPUInfoKey : string)
    (n : nodeinfo.nodeInfoCollector ProcessorInfo CPUTotalInfo) :
  (forall err,
      nodeinfo.collectNodeCPUInfo NodeCPUInfoKey (inr err) n = (n, Some err)
      /\ nodeinfo.collectNodeInfo NodeCPUInfoKey (inr err) n = n)
  /\ (forall info,
      let value := {| nodeinfo.ProcessorInfos := nodeinfo.lProcessorInfos info;
                      nodeinfo.TotalInfo := nodeinfo.lTotalInfo info |} in
      let written := nodeinfo.KVSet NodeCPUInfoKey value (nodeinfo.storage n) in
      nodeinfo.collectNodeCPUInfo NodeCPUInfoKey (inl info) n
      = ({| nodeinfo.storage := written; nodeinfo.started := nodeinfo.started n |},
         None)
      /\ nodeinfo.collectNodeInfo NodeCPUInfoKey (inl info) n
         = {| nodeinfo.storage := written; nodeinfo.started := true |}
      /\ nodeinfo.Started (nodeinfo.collectNodeInfo NodeCPUInfoKey (inl info) n)
         = true
      /\ nodeinfo.sets written
         = nodeinfo.sets (nodeinfo.storage n) ++ [(NodeCPUInfoKey, value)]
      /\ nodeinfo.entries written !! NodeCPUInfoKey = Some value
      /\ (forall key, key <> NodeCPUInfoKey ->
            nodeinfo.entries written !! key
            = nodeinfo.entries (nodeinfo.storage n) !! key))
  /\ (forall err cycles,
      nodeinfo.Until NodeCPUInfoKey (inr err :: cycles) n
      = nodeinfo.Until NodeCPUInfoKey cycles n)
  /\ (forall cycles,
      nodeinfo.Until NodeCPUInfoKey cycles n
      = nodeinfo.Until NodeCPUInfoKey (List.filter nodeinfo.succeeded cycles) n).
Proof.
  split; [intros err; split; reflexivity|]. split.
  - intros info value written. split; [reflexivity|]. split; [reflexivity|].
    split; [reflexivity|]. split; [reflexivity|]. split.
    + apply lookup_insert_eq.
    + intros key Hkey. now apply lookup_insert_ne.
  - split; [reflexivity | intros cycles; apply Until_skips_failed].
Qed.

(** ** The advisor's [Run] *)

Section AdvisorFacts.

Import framework metricsadvisor.

Lemma forEnabled_In mk entries ev :
  In ev (forEnabled mk entries)
  <-> exists name c, In (name, c) entries /\ Enabled c = true /\ ev = mk name.
Proof.
  unfold forEnabled. rewrite List.in_flat_map. split.
  - intros [[name c] [Hin Hev]]. destruct (Enabled c) eqn:Hen; simpl in Hev.
    + destruct Hev as [<-|[]]. now exists name, c.
    + destruct Hev.
  - intros (name & c & Hin & Hen & ->). exists (name, c).
    split; [exact Hin|]. rewrite Hen. now left.
Qed.

Lemma forEnabled_NoDup mk entries :
  (forall a b, mk a = mk b -> a = b) ->
  NoDup (map fst entries) -> NoDup (forEnabled mk entries).
Proof.
  intros Hinj. induction entries as [|[name c] rest IH]; intros Hnd;
    [constructor|].
  cbn [map fst] in Hnd. apply NoDup_cons in Hnd as [Hfresh Hnd].
  change (forEnabled mk ((name, c) :: rest))
    with ((if negb (Enabled c) then [] else [mk name]) ++ forEnabled mk rest).
  destruct (Enabled c); simpl; [|now apply IH].
  apply NoDup_cons. split; [|now apply IH].
  rewrite list_elem_of_In. intros Hin.
  apply forEnabled_In in Hin as (name' & c' & Hin & _ & Heq).
  apply Hinj in Heq. subst name'. apply Hfresh.
  rewrite list_elem_of_In. apply List.in_map_iff. now exists (name, c').
Qed.

End AdvisorFacts.

(** C8. In whatever order the registry is visited:
    - with a collection interval below one second, [Run] returns nil having
      done nothing: no setup, no collector started, no wait for the channel;
    - with an interval of one second or more, [Run] sets up the collectors,
      then starts them, then waits for the channel and returns nil; the
      collectors set up are the enabled ones, each once, and so are the
      collectors started. *)
Theorem C8_pipeline_run `{MapRange} (m : metricsadvisor.metricAdvisor) :
  let interval :=
    framework.CollectResUsedInterval
      (framework.Config_ (metricsadvisor.options m)) in
  let enabled name :=
    exists c, framework.Collectors (metricsadvisor.context m) !! name = Some c
              /\ framework.Enabled c = true in
  ((interval < framework.Second)%Z -> metricsadvisor.Run m = ([], None))
  /\ ((framework.Second <= interval)%Z ->
      metricsadvisor.Run m
      = (metricsadvisor.setup m ++ metricsadvisor.startCollectors m
         ++ [metricsadvisor.EvRecvStop], None)
      /\ NoDup (metricsadvisor.setup m)
      /\ NoDup (metricsadvisor.startCollectors m)
      /\ (forall ev, In ev (metricsadvisor.setup m)
                     <-> exists name, ev = metricsadvisor.EvSetup name /\ enabled name)
      /\ (forall ev, In ev (metricsadvisor.startCollectors m)
                     <-> exists name, ev = metricsadvisor.EvGoRun name /\ enabled name)).
Proof.
  intros interval enabled. unfold metricsadvisor.Run. fold interval. split.
  - intros Hlt. apply Z.ltb_lt in Hlt. now rewrite Hlt.
  - intros Hge. apply Z.ltb_ge in Hge. rewrite Hge.
    split; [reflexivity|].
    split; [apply forEnabled_NoDup; [now intros a b [= ->] | apply range_NoDup_keys]|].
    split; [apply forEnabled_NoDup; [now intros a b [= ->] | apply range_NoDup_keys]|].
    split; intros ev.
    + unfold metricsadvisor.setup. rewrite forEnabled_In. split.
      * intros (name & c & Hin & Hen & ->). apply range_lookup in Hin.
        exists name. split; [reflexivity | now exists c].
      * intros (name & -> & c & Hc & Hen). exists name, c.
        split; [now apply range_lookup | now split].
    + unfold metricsadvisor.startCollectors. rewrite forEnabled_In. split.
      * intros (name & c & Hin & Hen & ->). apply range_lookup in Hin.
        exists name. split; [reflexivity | now exists c].
      * intros (name & -> & c & Hc & Hen). exists name, c.
        split; [now apply range_lookup | now split].
Qed.

Lemma C8_pipeline_run_witness :
  metricsadvisor.Run (sample.advisor 999999999 sample.collectors) = ([], None)
  /\ metricsadvisor.Run (sample.advisor 1000000000 sample.collectors)
     = ([metricsadvisor.EvSetup "NodeInfoCollector";
         metricsadvisor.EvGoRun "NodeInfoCollector";
         metricsadvisor.EvRecvStop], None).
Proof.
  split.
  - destruct (@C8_pipeline_run canonicalRange
                (sample.advisor 999999999 sample.collectors)) as [Hoff _].
    rewrite Hoff; [reflexivity|]. vm_compute. reflexivity.
  - destruct (@C8_pipeline_run canonicalRange
                (sample.advisor 1000000000 sample.collectors)) as [_ Hrun].
    destruct Hrun as [Hrun _]; [vm_compute; discriminate|].
    rewrite Hrun. vm_compute. reflexivity.
Defined.

(** ** [PodMeta] *)

Section PodMetaFacts.

Lemma GetPodKey_not_empty (pod : corev1.Pod) :
  statesinformer.GetPodKey pod <> EmptyString.
Proof.
  unfold statesinformer.GetPodKey.
  destruct (corev1.Namespace pod) as [|c ns]; discriminate.
Qed.

End PodMetaFacts.

(** C9. [Key] returns the empty string exactly when the receiver is nil or
    its pod is nil; for a receiver with a pod, the key is one function of the
    namespace and the name of the pod, so that two records whose pods agree
    on both have the same key, whatever else differs. *)
Theorem C9_pod_key :
  (forall in_ : option statesinformer.PodMeta,
      statesinformer.Key in_ = EmptyString
      <-> in_ = None
          \/ exists m, in_ = Some m /\ statesinformer.Pod m = None)
  /\ (exists f : string -> string -> string,
        forall m pod,
          statesinformer.Pod m = Some pod ->
          statesinformer.Key (Some m)
          = f (corev1.Namespace pod) (corev1.Name pod))
  /\ (forall m1 m2 pod1 pod2,
        statesinformer.Pod m1 = Some pod1 ->
        statesinformer.Pod m2 = Some pod2 ->
        corev1.Namespace pod1 = corev1.Namespace pod2 ->
        corev1.Name pod1 = corev1.Name pod2 ->
        statesinformer.Key (Some m1) = statesinformer.Key (Some m2)).
Proof.
  split; [|split].
  - intros [m|]; cbn [statesinformer.Key].
    + destruct (statesinformer.Pod m) as [pod|] eqn:Hpod; split.
      * intros Hkey. now apply GetPodKey_not_empty in Hkey.
      * intros [Hnil | (m' & [= <-] & Hnone)]; congruence.
      * intros _. right. now exists m.
      * reflexivity.
    + split; [now left | reflexivity].
  - exists (fun namespace name => namespace +:+ "/" +:+ name).
    intros m pod Hpod. cbn [statesinformer.Key]. now rewrite Hpod.
  - intros m1 m2 pod1 pod2 H1 H2 Hns Hname. cbn [statesinformer.Key].
    rewrite H1, H2. unfold statesinformer.GetPodKey. now rewrite Hns, Hname.
Qed.

Lemma C9_pod_key_witness :
  statesinformer.Key
    (Some {| statesinformer.Pod := Some sample.pod;
             statesinformer.CgroupDir := "kubepods-pod7712555c.slice/" |})
  = statesinformer.Key
      (Some {| statesinformer.Pod := Some sample.otherPod;
               statesinformer.CgroupDir := "kubepods-pod9ff0217b.slice/" |}).
Proof.
  destruct C9_pod_key as (_ & _ & Hsame).
  apply (Hsame _ _ sample.pod sample.otherPod); reflexivity.
Defined.

(** C10, as amended. [DeepCopy] panics exactly when its receiver is nil. For
    a receiver whose pod is nil it returns a copy whose pod is nil and whose
    cgroup directory is that of the receiver; for a receiver with a pod, a
    copy with a copy of the pod. *)
Theorem C10_deep_copy :
  (forall in_ : option statesinformer.PodMeta,
      statesinformer.DeepCopy in_ = statesinformer.Panics <-> in_ = None)
  /\ (forall m : statesinformer.PodMeta,
        statesinformer.DeepCopy (Some m)
        = statesinformer.Returns
            (Some {| statesinformer.Pod := statesinformer.Pod m;
                     statesinformer.CgroupDir := statesinformer.CgroupDir m |})).
Proof.
  split.
  - intros [m|]; cbn [statesinformer.DeepCopy]; split; congruence.
  - intros m. cbn [statesinformer.DeepCopy]. unfold corev1.DeepCopy.
    now destruct (statesinformer.Pod m).
Qed.

(** C10, as stated, fails: for a record without a pod, for which [Key]
    returns the empty string and [IsRunningOrPending] false, [DeepCopy]
    does not panic and returns a copy without a pod. *)
Lemma C10_counterexample :
  statesinformer.Pod sample.podless = None
  /\ statesinformer.Key (Some sample.podless) = EmptyString
  /\ statesinformer.IsRunningOrPending (Some sample.podless) = false
  /\ statesinformer.DeepCopy (Some sample.podless)
     = statesinformer.Returns (Some sample.podless)
  /\ statesinformer.DeepCopy (Some sample.podless) <> statesinformer.Panics.
Proof. repeat split; try reflexivity. discriminate. Qed.
